(** * PerCom blog-post API: the record store and its request handlers

    A shallow embedding of [python/app/models.py], [python/app/schemas.py],
    [python/app/storage.py] and [python/app/main.py], and the properties of
    the store and of the handler layer proved over it.

    The dictionary [PostStorage._posts] is a finite map from identifiers to
    records ([gmap string PostModel.t]).  Python keeps a dictionary in
    insertion order; the order of [list_posts] is the map's own here, and no
    statement below depends on it. *)

From stdpp Require Import gmap strings list fin_maps fin_sets pretty.

Local Open Scope string_scope.
#[local] Set Warnings "-clear-no-such-hyp".

(** ** Data model *)

(** [datetime.datetime]: the code only carries values of this type around. *)
Module Datetime.
Record t : Type := mk {
  year : Z; month : Z; day : Z;
  hour : Z; minute : Z; second : Z; microsecond : Z;
  utcoffset : option Z   (* [None]: naive; [Some s]: offset in seconds *)
}.
End Datetime.

(** models.py: [@dataclass class PostModel]. *)
Module PostModel.
Record t : Type := mk {
  id : string;
  author : string;
  date : Datetime.t;
  content : string
}.
End PostModel.

(** schemas.py: [class Post(BaseModel)], the response model. *)
Module Post.
Record t : Type := mk {
  id : string;
  author : string;
  date : Datetime.t;
  content : string
}.

(** What [response_model=Post] does to the dataclass a handler returns:
    the four attributes are read off field by field. *)
Definition from_model (m : PostModel.t) : t :=
  mk (PostModel.id m) (PostModel.author m) (PostModel.date m)
     (PostModel.content m).
End Post.

(** schemas.py: [class PostInput(BaseModel)], the request body. *)
Module PostInput.
Record t : Type := mk {
  author : string;
  date : Datetime.t;
  content : string
}.
End PostInput.

(** A decoded JSON request body. Numbers are decimal literals
    [mantissa * 10 ^ exponent]. *)
#[warnings="-register-all"]
Inductive json : Type :=
  | JNull
  | JBool (b : bool)
  | JNumber (mantissa exponent : Z)
  | JString (s : string)
  | JArray (items : list json)
  | JObject (members : list (string * json)).

(** Member lookup in a decoded object: of two members with one name the
    later one is kept, as [json.loads] does. *)
Fixpoint json_member (name : string) (members : list (string * json))
    : option json :=
  match members with
  | [] => None
  | (k, v) :: rest =>
      match json_member name rest with
      | Some v' => Some v'
      | None => if decide (k = name) then Some v else None
      end
  end.

(** ** storage.py *)

Module Storage.

(** [class PostStorage]: the dictionary [_posts], and the number of
    [uuid4()] calls [create_post] has made so far, which is the position of
    the store in the stream of generated identifiers. *)
Record PostStorage : Type := mk {
  _posts : gmap string PostModel.t;
  uuid_calls : nat
}.

(** [__init__]: [self._posts = {}]. *)
Definition init : PostStorage := mk ∅ 0.

(** [dict.pop(key, None)]: the value found, if any, and the dictionary
    without the key. *)
Definition dict_pop (key : string) (d : gmap string PostModel.t)
    : option PostModel.t * gmap string PostModel.t :=
  (d !! key, delete key d).

(** [list(self._posts.values())]. *)
Definition list_posts (self : PostStorage) : list PostModel.t :=
  (map_to_list (_posts self)).*2.

(** [self._posts.get(post_id)]. *)
Definition get_post (post_id : string) (self : PostStorage)
    : option PostModel.t :=
  _posts self !! post_id.

(** [uuid4 n] is the text that the [n]-th call of [str(uuid4())] made by
    the store returns. *)
Definition create_post (uuid4 : nat → string) (author : string)
    (date : Datetime.t) (content : string) (self : PostStorage)
    : PostModel.t * PostStorage :=
  let new_id := uuid4 (uuid_calls self) in
  let post := PostModel.mk new_id author date content in
  (post, mk (<[new_id := post]> (_posts self)) (S (uuid_calls self))).

Definition update_post (post_id : string) (author : string)
    (date : Datetime.t) (content : string) (self : PostStorage)
    : option PostModel.t * PostStorage :=
  if decide (post_id ∉ dom (_posts self)) then (None, self)
  else
    let post := PostModel.mk post_id author date content in
    (Some post, mk (<[post_id := post]> (_posts self)) (uuid_calls self)).

Definition delete_post (post_id : string) (self : PostStorage)
    : bool * PostStorage :=
  let '(popped, posts') := dict_pop post_id (_posts self) in
  (bool_decide (popped ≠ None), mk posts' (uuid_calls self)).

End Storage.

(** ** main.py *)

Module Main.

(** [HTTPException(status_code=..., detail=...)]. *)
Record HTTPException : Type := mkHTTPException {
  status_code : Z;
  detail : string
}.

(** The only exception the handlers raise. *)
Definition not_found : HTTPException := mkHTTPException 404%Z "Post not found".

(** The module-level [storage = PostStorage()] is threaded through the
    handlers; a handler that raises returns the exception on the left.

    [if not post] and [if not updated] test an [Optional[PostModel]]: a
    dataclass instance defines neither [__bool__] nor [__len__], so the test
    holds for [None] only. *)
Definition list_posts (storage : Storage.PostStorage) : list PostModel.t :=
  Storage.list_posts storage.

Definition create_post (uuid4 : nat → string) (post : PostInput.t)
    (storage : Storage.PostStorage) : PostModel.t * Storage.PostStorage :=
  Storage.create_post uuid4 (PostInput.author post) (PostInput.date post)
    (PostInput.content post) storage.

Definition get_post (post_id : string) (storage : Storage.PostStorage)
    : HTTPException + PostModel.t :=
  match Storage.get_post post_id storage with
  | None => inl not_found
  | Some post => inr post
  end.

Definition update_post (post_id : string) (post : PostInput.t)
    (storage : Storage.PostStorage)
    : (HTTPException + PostModel.t) * Storage.PostStorage :=
  let '(updated, storage') :=
    Storage.update_post post_id (PostInput.author post) (PostInput.date post)
      (PostInput.content post) storage in
  match updated with
  | None => (inl not_found, storage')
  | Some post' => (inr post', storage')
  end.

Definition delete_post (post_id : string) (storage : Storage.PostStorage)
    : (HTTPException + unit) * Storage.PostStorage :=
  let '(deleted, storage') := Storage.delete_post post_id storage in
  if negb deleted then (inl not_found, storage') else (inr (), storage').

End Main.

(** ** The routes of [app]

    What the decorators of main.py add around the handlers: the route and
    its method, the body parameter [post: PostInput] validated before the
    handler is entered, the status code of a success, and the response
    model. *)

Inductive request : Type :=
  | GET_posts
  | POST_posts (body : json)
  | GET_posts_id (post_id : string)
  | PUT_posts_id (post_id : string) (body : json)
  | DELETE_posts_id (post_id : string).

Inductive payload : Type :=
  | PostList (posts : list Post.t)
  | OnePost (post : Post.t)
  | NoBody
  | Detail (detail : string)
  | ValidationErrors.

Record response : Type := Response {
  status : Z;
  body : payload
}.

(** The spec's names for the two failures. *)
Definition NotFound : response := Response 404%Z (Detail "Post not found").
Definition InvalidInput : response := Response 422%Z ValidationErrors.

Definition raised (e : Main.HTTPException) : response :=
  Response (Main.status_code e) (Detail (Main.detail e)).

Section App.

(** The generator of identifiers, and the validators that the annotations
    [str] and [datetime] of a schema field stand for: what the field holds
    when the JSON value is accepted, [None] when it is refused. *)
Variable uuid4 : nat → string.
Variable validate_str : json → option string.
Variable validate_datetime : json → option Datetime.t.

(** Validation of a body against [PostInput]: an object whose members
    [author], [date] and [content] are all there and all accepted. *)
Definition validate_PostInput (body : json) : option PostInput.t :=
  match body with
  | JObject members =>
      author ← json_member "author" members ≫= validate_str;
      date ← json_member "date" members ≫= validate_datetime;
      content ← json_member "content" members ≫= validate_str;
      Some (PostInput.mk author date content)
  | _ => None
  end.

Definition app (req : request) (storage : Storage.PostStorage)
    : response * Storage.PostStorage :=
  match req with
  | GET_posts =>
      (Response 200%Z (PostList (Post.from_model <$> Main.list_posts storage)),
       storage)
  | POST_posts body =>
      match validate_PostInput body with
      | None => (InvalidInput, storage)
      | Some post =>
          let '(created, storage') := Main.create_post uuid4 post storage in
          (Response 201%Z (OnePost (Post.from_model created)), storage')
      end
  | GET_posts_id post_id =>
      match Main.get_post post_id storage with
      | inl e => (raised e, storage)
      | inr post => (Response 200%Z (OnePost (Post.from_model post)), storage)
      end
  | PUT_posts_id post_id body =>
      match validate_PostInput body with
      | None => (InvalidInput, storage)
      | Some post =>
          match Main.update_post post_id post storage with
          | (inl e, storage') => (raised e, storage')
          | (inr updated, storage') =>
              (Response 200%Z (OnePost (Post.from_model updated)), storage')
          end
      end
  | DELETE_posts_id post_id =>
      match Main.delete_post post_id storage with
      | (inl e, storage') => (raised e, storage')
      | (inr _, storage') => (Response 204%Z NoBody, storage')
      end
  end.

(** A sequence of requests served one after the other, with the log of
    what was asked and answered. *)
Fixpoint serve (reqs : list request) (storage : Storage.PostStorage)
    : list (request * response) * Storage.PostStorage :=
  match reqs with
  | [] => ([], storage)
  | req :: rest =>
      let '(resp, storage1) := app req storage in
      let '(log, storage2) := serve rest storage1 in
      ((req, resp) :: log, storage2)
  end.

(** The store after [reqs], from the empty store the module starts with. *)
Definition state_after (reqs : list request) : Storage.PostStorage :=
  (serve reqs Storage.init).2.

(** The identifiers that a List request shows. *)
Definition List_ids (storage : Storage.PostStorage) : list string :=
  match body (app GET_posts storage).1 with
  | PostList posts => Post.id <$> posts
  | _ => []
  end.

End App.

(** The identifier of the post a successful Create returned. *)
Definition created_id (entry : request * response) : option string :=
  match entry with
  | (POST_posts _, Response 201%Z (OnePost post)) => Some (Post.id post)
  | _ => None
  end.

(** The identifier a successful Delete removed. *)
Definition deleted_id (entry : request * response) : option string :=
  match entry with
  | (DELETE_posts_id post_id, Response 204%Z NoBody) => Some post_id
  | _ => None
  end.

Definition created_ids (log : list (request * response)) : list string :=
  omap created_id log.

Definition deleted_ids (log : list (request * response)) : list string :=
  omap deleted_id log.

(** The bodies sent with the Create and Update requests of a sequence. *)
Definition request_body (req : request) : option json :=
  match req with
  | POST_posts body | PUT_posts_id _ body => Some body
  | _ => None
  end.

(** No identifier comes twice among the first [n] the generator gives. *)
Definition collision_free (uuid4 : nat → string) (n : nat) : Prop :=
  NoDup (uuid4 <$> seq 0 n).

(** The set of the first [n] identifiers of the generator. *)
Definition drawn (uuid4 : nat → string) (n : nat) : gset string :=
  list_to_set (uuid4 <$> seq 0 n).

(** Every record sits under its own identifier. *)
Definition keyed_by_id (storage : Storage.PostStorage) : Prop :=
  ∀ key post,
    Storage._posts storage !! key = Some post → PostModel.id post = key.

(** The bodies that the specification calls structurally invalid, in its
    words: a field is missing (or there is no object to hold fields at all),
    a text field has a value of the wrong type, or the timestamp does not
    parse. *)
Inductive structurally_invalid (validate_str : json → option string)
    (validate_datetime : json → option Datetime.t) : json → Prop :=
  | not_an_object body :
      (∀ members, body ≠ JObject members) →
      structurally_invalid validate_str validate_datetime body
  | missing_field members name :
      name ∈ ["author"; "date"; "content"] →
      json_member name members = None →
      structurally_invalid validate_str validate_datetime (JObject members)
  | wrong_typed_field members name v :
      name ∈ ["author"; "content"] →
      json_member name members = Some v →
      validate_str v = None →
      structurally_invalid validate_str validate_datetime (JObject members)
  | unparseable_timestamp members v :
      json_member "date" members = Some v →
      validate_datetime v = None →
      structurally_invalid validate_str validate_datetime (JObject members).

(** [author] is the author field of a body that came with a Create or an
    Update request of [reqs] and that validation accepted. *)
Definition accepted_author (validate_str : json → option string)
    (validate_datetime : json → option Datetime.t)
    (reqs : list request) (author : string) : Prop :=
  ∃ req body input,
    req ∈ reqs
    ∧ request_body req = Some body
    ∧ validate_PostInput validate_str validate_datetime body = Some input
    ∧ PostInput.author input = author.

(** *** Sample instances

    A generator and two validators to run the model on: identifiers
    numbered from zero, text fields that take a JSON string as it is and
    nothing else, and a timestamp validator that knows the two instants of
    the scenario of the specification and refuses everything else. *)

Definition sample_uuid4 (n : nat) : string :=
  "00000000-0000-4000-8000-" +:+ pretty n.

Definition str_of_json (v : json) : option string :=
  match v with
  | JString s => Some s
  | _ => None
  end.

Definition datetime_of_json (v : json) : option Datetime.t :=
  match v with
  | JString s =>
      if decide (s = "2024-01-01T00:00:00Z")
      then Some (Datetime.mk 2024 1 1 0 0 0 0 (Some 0%Z))
      else if decide (s = "2024-02-02T00:00:00Z")
      then Some (Datetime.mk 2024 2 2 0 0 0 0 (Some 0%Z))
      else None
  | _ => None
  end.

Definition post_body (author date content : string) : json :=
  JObject [("author", JString author); ("date", JString date);
           ("content", JString content)].

Definition sample_app := app sample_uuid4 str_of_json datetime_of_json.
Definition sample_serve := serve sample_uuid4 str_of_json datetime_of_json.

Definition jan_1 : Datetime.t := Datetime.mk 2024 1 1 0 0 0 0 (Some 0%Z).
Definition feb_2 : Datetime.t := Datetime.mk 2024 2 2 0 0 0 0 (Some 0%Z).

Definition alice : PostInput.t := PostInput.mk "Alice" jan_1 "hello".
Definition bob : PostInput.t := PostInput.mk "Bob" feb_2 "bye".

Definition alice_body : json := post_body "Alice" "2024-01-01T00:00:00Z" "hello".
Definition bob_body : json := post_body "Bob" "2024-02-02T00:00:00Z" "bye".

(** A body whose author is the empty text. *)
Definition anonymous_body : json := post_body "" "2024-01-01T00:00:00Z" "hello".

(** A body with no [date] and a number for [author]. *)
Definition broken_body : json := JObject [("author", JNumber 7 0)].

(** The first three identifiers of the sample generator. *)
Definition id0 : string := "00000000-0000-4000-8000-0".
Definition id1 : string := "00000000-0000-4000-8000-1".
Definition id2 : string := "00000000-0000-4000-8000-2".

(** The store after one Create. *)
Definition one_post : Storage.PostStorage :=
  (Main.create_post sample_uuid4 alice Storage.init).2.

(** The store after two Creates. *)
Definition two_posts : Storage.PostStorage :=
  (Main.create_post sample_uuid4 bob one_post).2.

(** Two Creates, a Delete of the first post and a third Create. *)
Definition busy_day : list request :=
  [POST_posts alice_body; POST_posts bob_body; DELETE_posts_id id0;
   PUT_posts_id id1 alice_body; POST_posts broken_body; POST_posts bob_body].

(** A generator that gives one identifier over and over, to see what the
    store does when an identifier comes back. *)
Definition stuck_uuid4 (n : nat) : string := id0.

(** The scenario of the specification, request by request. *)
Example scenario :
  (sample_serve
     [POST_posts alice_body; GET_posts_id id0; PUT_posts_id id0 bob_body;
      DELETE_posts_id id0; GET_posts_id id0] Storage.init).1.*2
  = [Response 201 (OnePost (Post.mk id0 "Alice" jan_1 "hello"));
     Response 200 (OnePost (Post.mk id0 "Alice" jan_1 "hello"));
     Response 200 (OnePost (Post.mk id0 "Bob" feb_2 "bye"));
     Response 204 NoBody;
     NotFound].
Proof. vm_compute. reflexivity. Qed.

(** The exception of the handlers is the NotFound answer. *)
Lemma raised_not_found : raised Main.not_found = NotFound.
Proof. reflexivity. Qed.

(** ** The store, one call at a time *)

Section StoreCalls.

Variable uuid4 : nat → string.

Implicit Types (storage : Storage.PostStorage) (post : PostInput.t).
Implicit Types (post_id other : string).

Lemma update_post_present post_id author date content storage :
  post_id ∈ dom (Storage._posts storage) →
  Storage.update_post post_id author date content storage
  = (Some (PostModel.mk post_id author date content),
     Storage.mk
       (<[post_id := PostModel.mk post_id author date content]>
          (Storage._posts storage))
       (Storage.uuid_calls storage)).
Proof.
  intros Hin. unfold Storage.update_post.
  destruct (decide (post_id ∉ _)) as [Hout|_]; [by destruct Hout|done].
Qed.

Lemma update_post_absent post_id author date content storage :
  post_id ∉ dom (Storage._posts storage) →
  Storage.update_post post_id author date content storage = (None, storage).
Proof.
  intros Hout. unfold Storage.update_post.
  destruct (decide (post_id ∉ _)); done.
Qed.

Lemma delete_post_spec post_id storage :
  Storage.delete_post post_id storage
  = (bool_decide (post_id ∈ dom (Storage._posts storage)),
     Storage.mk (delete post_id (Storage._posts storage))
       (Storage.uuid_calls storage)).
Proof.
  unfold Storage.delete_post, Storage.dict_pop. f_equal.
  apply bool_decide_ext. rewrite elem_of_dom, <-not_eq_None_Some. done.
Qed.

Lemma handler_delete_post_spec post_id storage :
  Main.delete_post post_id storage
  = (if decide (post_id ∈ dom (Storage._posts storage))
     then inr () else inl Main.not_found,
     Storage.mk (delete post_id (Storage._posts storage))
       (Storage.uuid_calls storage)).
Proof.
  unfold Main.delete_post. rewrite delete_post_spec.
  destruct (decide _) as [Hin|Hout].
  - by rewrite bool_decide_eq_true_2.
  - by rewrite bool_decide_eq_false_2.
Qed.

Lemma delete_post_absent post_id storage :
  post_id ∉ dom (Storage._posts storage) →
  Main.delete_post post_id storage = (inl Main.not_found, storage).
Proof.
  intros Hout. rewrite handler_delete_post_spec.
  rewrite decide_False by done. f_equal.
  destruct storage as [posts n]; simpl in *. f_equal.
  apply delete_id. by apply not_elem_of_dom.
Qed.

(** C1. Round trip: the post that Create returns carries the author, date
    and content of the input, and Read on its id returns that very post. *)
Theorem create_then_read_roundtrip post storage :
  let created := (Main.create_post uuid4 post storage).1 in
  let storage' := (Main.create_post uuid4 post storage).2 in
  Main.get_post (PostModel.id created) storage' = inr created
  ∧ PostModel.author created = PostInput.author post
  ∧ PostModel.date created = PostInput.date post
  ∧ PostModel.content created = PostInput.content post.
Proof.
  simpl. unfold Main.get_post, Storage.get_post. simpl.
  by rewrite lookup_insert_eq.
Qed.

(** C2. Update preserves identity: for an id that is in the store, Update
    returns the post made of that id and of exactly the author, date and
    content given, whatever the record held before, and that post is what
    the store holds under the id afterwards. *)
Theorem update_preserves_identity post_id post storage :
  post_id ∈ dom (Storage._posts storage) →
  let updated :=
    PostModel.mk post_id (PostInput.author post) (PostInput.date post)
      (PostInput.content post) in
  (Main.update_post post_id post storage).1 = inr updated
  ∧ Storage.get_post post_id (Main.update_post post_id post storage).2
    = Some updated.
Proof.
  intros Hin updated. unfold Main.update_post.
  rewrite update_post_present by done. simpl. split; [done|].
  apply lookup_insert_eq.
Qed.

(** C3. Delete is terminal: once Delete of an id has succeeded, Read,
    Update and a second Delete of that id all raise the 404 exception, and
    none of them changes the store. *)
Theorem delete_is_terminal post_id storage storage' :
  Main.delete_post post_id storage = (inr (), storage') →
  Main.get_post post_id storage' = inl Main.not_found
  ∧ (∀ post,
       Main.update_post post_id post storage' = (inl Main.not_found, storage'))
  ∧ Main.delete_post post_id storage' = (inl Main.not_found, storage').
Proof.
  rewrite handler_delete_post_spec. intros [= Hok <-].
  assert (post_id ∉ dom (Storage._posts
            (Storage.mk (delete post_id (Storage._posts storage))
               (Storage.uuid_calls storage)))) as Hgone.
  { simpl. rewrite elem_of_dom, lookup_delete_eq. by intros [? ?]. }
  split_and!.
  - unfold Main.get_post, Storage.get_post. simpl.
    by rewrite lookup_delete_eq.
  - intros post. unfold Main.update_post.
    by rewrite update_post_absent.
  - by apply delete_post_absent.
Qed.

(** C6. No upsert: Update of an id that is not in the store returns
    [None] from the store and raises 404 in the handler; the store after the
    call is the store before it, so no record has been created. *)
Theorem update_absent_no_upsert post_id post storage :
  post_id ∉ dom (Storage._posts storage) →
  Storage.update_post post_id (PostInput.author post) (PostInput.date post)
    (PostInput.content post) storage = (None, storage)
  ∧ Main.update_post post_id post storage = (inl Main.not_found, storage)
  ∧ Storage.get_post post_id (Main.update_post post_id post storage).2 = None.
Proof.
  intros Hout. unfold Main.update_post.
  rewrite update_post_absent by done. split_and!; [done..|].
  simpl. by apply not_elem_of_dom.
Qed.

(** *** How the three mutations count and compose *)

(** Membership of one id in the store after a write to another id, from
    the equivalences [Hins1], [Hins2] and [Hdel2] of the proof at hand. *)
Local Ltac same_dom :=
  simpl;
  match goal with
  | Hins1 : (∀ p, _ ∈ dom (<[_ := p]> _) ↔ _),
    Hins2 : (∀ p, _ ∈ dom (<[_ := p]> _) ↔ _),
    Hdel2 : (_ ∈ dom (delete _ _) ↔ _) |- _ =>
      first [ done | by apply Hins1 | by apply Hins2 | by apply Hdel2
            | by rewrite Hins1 | by rewrite Hins2 | by rewrite Hdel2 ]
  end.

Lemma length_list_posts storage :
  length (Storage.list_posts storage) = size (Storage._posts storage).
Proof.
  unfold Storage.list_posts. by rewrite length_fmap, length_map_to_list.
Qed.

(** X1. Update never adds or removes a record: whether it succeeds or
    not, the identifiers of the store and the number of posts that
    [list_posts] returns are what they were, and no identifier is drawn. *)
Theorem update_keeps_identifiers post_id author date content storage :
  let storage' :=
    (Storage.update_post post_id author date content storage).2 in
  dom (Storage._posts storage') = dom (Storage._posts storage)
  ∧ length (Storage.list_posts storage')
    = length (Storage.list_posts storage)
  ∧ Storage.uuid_calls storage' = Storage.uuid_calls storage.
Proof.
  unfold Storage.update_post. case_decide as Hin; [done|]. simpl.
  assert (dom (<[post_id := PostModel.mk post_id author date content]>
                 (Storage._posts storage))
          = dom (Storage._posts storage)) as Hdom.
  { rewrite dom_insert_L. set_solver. }
  split_and!; [done| |done].
  rewrite !length_list_posts. simpl.
  by rewrite <-!(size_dom (D := gset string)), Hdom.
Qed.


(** X3. Create writes under the identifier it has drawn without looking
    whether the key is taken: the store gains a post when the identifier is
    new, and keeps its size, the record under that key replaced, when it is
    not. *)
Theorem create_adds_or_overwrites author date content storage :
  let new_id := uuid4 (Storage.uuid_calls storage) in
  let storage' :=
    (Storage.create_post uuid4 author date content storage).2 in
  dom (Storage._posts storage') = {[new_id]} ∪ dom (Storage._posts storage)
  ∧ Storage.get_post new_id storage'
    = Some (PostModel.mk new_id author date content)
  ∧ length (Storage.list_posts storage')
    = (if decide (new_id ∈ dom (Storage._posts storage))
       then length (Storage.list_posts storage)
       else S (length (Storage.list_posts storage))).
Proof.
  simpl. unfold Storage.get_post. rewrite !length_list_posts. simpl.
  split_and!.
  - apply dom_insert_L.
  - apply lookup_insert_eq.
  - rewrite map_size_insert. case_decide as Hin.
    + apply elem_of_dom in Hin as [post ->]. done.
    + apply not_elem_of_dom in Hin. by rewrite Hin.
Qed.

(** X4. Create then Delete of the created post gives the dictionary back:
    when the identifier drawn is not yet a key, deleting the post just
    created succeeds and leaves the records that were there before, with one
    identifier drawn. *)
Theorem create_then_delete_restores author date content storage :
  uuid4 (Storage.uuid_calls storage) ∉ dom (Storage._posts storage) →
  let created := (Storage.create_post uuid4 author date content storage).1 in
  let storage1 := (Storage.create_post uuid4 author date content storage).2 in
  Storage.delete_post (PostModel.id created) storage1
  = (true,
     Storage.mk (Storage._posts storage) (S (Storage.uuid_calls storage))).
Proof.
  intros Hfresh%not_elem_of_dom. simpl. rewrite delete_post_spec. simpl.
  f_equal.
  - apply bool_decide_eq_true. rewrite dom_insert_L. set_solver.
  - f_equal. rewrite delete_insert_eq. by apply delete_id.
Qed.

(** X5. The last Update wins: two Updates of one id in a row give the
    answer and the store of the second one alone. *)
Theorem update_last_writer_wins post_id a1 d1 c1 a2 d2 c2 storage :
  Storage.update_post post_id a2 d2 c2
    (Storage.update_post post_id a1 d1 c1 storage).2
  = Storage.update_post post_id a2 d2 c2 storage.
Proof.
  destruct (decide (post_id ∈ dom (Storage._posts storage))) as [Hin|Hout].
  - rewrite (update_post_present post_id a1 d1 c1) by done. simpl.
    rewrite !update_post_present; [|done|].
    + simpl. by rewrite insert_insert_eq.
    + simpl. rewrite dom_insert_L. set_solver.
  - by rewrite (update_post_absent post_id a1 d1 c1).
Qed.

(** X6. Mutations of different ids do not see each other: an Update and a
    Delete, two Updates, or two Deletes of two different ids give the same
    store in either order, and the answer of each, of an Update after an
    Update or a Delete and of a Delete after an Update or a Delete, is what
    it would be alone. *)
Theorem mutations_of_distinct_ids_commute id1 id2 a1 d1 c1 a2 d2 c2 storage :
  id1 ≠ id2 →
  (Storage.update_post id1 a1 d1 c1
     (Storage.update_post id2 a2 d2 c2 storage).2).2
  = (Storage.update_post id2 a2 d2 c2
       (Storage.update_post id1 a1 d1 c1 storage).2).2
  ∧ (Storage.delete_post id1
       (Storage.update_post id2 a2 d2 c2 storage).2).2
    = (Storage.update_post id2 a2 d2 c2
         (Storage.delete_post id1 storage).2).2
  ∧ (Storage.delete_post id1 (Storage.delete_post id2 storage).2).2
    = (Storage.delete_post id2 (Storage.delete_post id1 storage).2).2
  ∧ (Storage.update_post id1 a1 d1 c1
       (Storage.update_post id2 a2 d2 c2 storage).2).1
    = (Storage.update_post id1 a1 d1 c1 storage).1
  ∧ (Storage.update_post id2 a2 d2 c2 (Storage.delete_post id1 storage).2).1
    = (Storage.update_post id2 a2 d2 c2 storage).1
  ∧ (Storage.delete_post id1
       (Storage.update_post id2 a2 d2 c2 storage).2).1
    = (Storage.delete_post id1 storage).1
  ∧ (Storage.delete_post id1 (Storage.delete_post id2 storage).2).1
    = (Storage.delete_post id1 storage).1.
Proof.
  intros Hne. rewrite !delete_post_spec. simpl.
  assert (∀ p, id1 ∈ dom (<[id2 := p]> (Storage._posts storage))
               ↔ id1 ∈ dom (Storage._posts storage)) as Hins1.
  { intros p. rewrite dom_insert_L. set_solver. }
  assert (∀ p, id2 ∈ dom (<[id1 := p]> (Storage._posts storage))
               ↔ id2 ∈ dom (Storage._posts storage)) as Hins2.
  { intros p. rewrite dom_insert_L. set_solver. }
  assert (id2 ∈ dom (delete id1 (Storage._posts storage))
          ↔ id2 ∈ dom (Storage._posts storage)) as Hdel2.
  { rewrite dom_delete_L. set_solver. }
  destruct (decide (id1 ∈ dom (Storage._posts storage))) as [Hin1|Hout1];
    destruct (decide (id2 ∈ dom (Storage._posts storage))) as [Hin2|Hout2].
  all: rewrite ?(update_post_present id1 a1 d1 c1 storage),
         ?(update_post_absent id1 a1 d1 c1 storage),
         ?(update_post_present id2 a2 d2 c2 storage),
         ?(update_post_absent id2 a2 d2 c2 storage) by done; simpl.
  all: repeat first
         [ rewrite update_post_present by same_dom
         | rewrite update_post_absent by same_dom ]; simpl.
  all: split_and!; try done.
  all: first
         [ f_equal; apply insert_insert_ne; done
         | f_equal; apply delete_insert_ne; done
         | f_equal; apply delete_delete
         | apply bool_decide_ext, Hins1
         | apply bool_decide_ext; rewrite dom_delete_L; set_solver ].
Qed.

End StoreCalls.

(** ** The routes, one request at a time *)

Section Routes.

Variable uuid4 : nat → string.
Variable validate_str : json → option string.
Variable validate_datetime : json → option Datetime.t.

Local Abbreviation validate :=
  (validate_PostInput validate_str validate_datetime).
Local Abbreviation app := (app uuid4 validate_str validate_datetime).
Local Abbreviation serve := (serve uuid4 validate_str validate_datetime).
Local Abbreviation final :=
  (state_after uuid4 validate_str validate_datetime).

Implicit Types (storage : Storage.PostStorage) (req : request).

Lemma app_GET_posts storage :
  app GET_posts storage
  = (Response 200
       (PostList (Post.from_model <$> Storage.list_posts storage)), storage).
Proof. done. Qed.

Lemma app_GET_posts_id post_id storage :
  (app (GET_posts_id post_id) storage).2 = storage.
Proof.
  simpl. unfold Main.get_post. by destruct (Storage.get_post _ _).
Qed.

Lemma app_POST_posts body storage :
  app (POST_posts body) storage
  = match validate body with
    | None => (InvalidInput, storage)
    | Some post =>
        let created :=
          PostModel.mk (uuid4 (Storage.uuid_calls storage))
            (PostInput.author post) (PostInput.date post)
            (PostInput.content post) in
        (Response 201 (OnePost (Post.from_model created)),
         Storage.mk
           (<[PostModel.id created := created]> (Storage._posts storage))
           (S (Storage.uuid_calls storage)))
    end.
Proof. simpl. by destruct (validate body). Qed.

Lemma app_PUT_posts_id post_id body storage :
  app (PUT_posts_id post_id body) storage
  = match validate body with
    | None => (InvalidInput, storage)
    | Some post =>
        if decide (post_id ∈ dom (Storage._posts storage)) then
          let updated :=
            PostModel.mk post_id (PostInput.author post)
              (PostInput.date post) (PostInput.content post) in
          (Response 200 (OnePost (Post.from_model updated)),
           Storage.mk (<[post_id := updated]> (Storage._posts storage))
             (Storage.uuid_calls storage))
        else (NotFound, storage)
    end.
Proof.
  simpl. destruct (validate body) as [post|]; [|done].
  unfold Main.update_post. destruct (decide _) as [Hin|Hout].
  - by rewrite update_post_present.
  - by rewrite update_post_absent.
Qed.

Lemma app_DELETE_posts_id post_id storage :
  app (DELETE_posts_id post_id) storage
  = if decide (post_id ∈ dom (Storage._posts storage)) then
      (Response 204 NoBody,
       Storage.mk (delete post_id (Storage._posts storage))
         (Storage.uuid_calls storage))
    else (NotFound, storage).
Proof.
  simpl. destruct (decide _) as [Hin|Hout].
  - rewrite handler_delete_post_spec. by rewrite decide_True.
  - by rewrite delete_post_absent.
Qed.

(** A property of the store that every request keeps holds after any
    sequence of requests. *)
Lemma serve_preserves (P : Storage.PostStorage → Prop) :
  (∀ req storage, P storage → P (app req storage).2) →
  ∀ reqs storage, P storage → P (serve reqs storage).2.
Proof.
  intros Hstep reqs. induction reqs as [|req rest IH]; intros storage HP.
  - done.
  - simpl. specialize (Hstep req storage HP).
    destruct (app req storage) as [resp storage1].
    specialize (IH storage1 Hstep).
    by destruct (serve rest storage1).
Qed.

Lemma app_keyed_by_id req storage :
  keyed_by_id storage → keyed_by_id (app req storage).2.
Proof.
  intros Hkey. destruct req as [|body|post_id|post_id body|post_id].
  - done.
  - rewrite app_POST_posts. destruct (validate body) as [post|]; [|done].
    intros key p. simpl. rewrite lookup_insert.
    case_decide; [naive_solver|apply Hkey].
  - by rewrite app_GET_posts_id.
  - rewrite app_PUT_posts_id. destruct (validate body) as [post|]; [|done].
    case_decide; [|done].
    intros key p. simpl. rewrite lookup_insert.
    case_decide; [naive_solver|apply Hkey].
  - rewrite app_DELETE_posts_id. case_decide; [|done].
    intros key p. simpl. rewrite lookup_delete.
    case_decide; [done|apply Hkey].
Qed.

Lemma state_after_keyed_by_id reqs : keyed_by_id (final reqs).
Proof.
  unfold state_after. apply serve_preserves; [apply app_keyed_by_id|].
  intros key p. unfold Storage.init. simpl. by rewrite lookup_empty.
Qed.

(** *** What List shows *)

Lemma list_posts_ids storage :
  keyed_by_id storage →
  PostModel.id <$> Storage.list_posts storage
  = (map_to_list (Storage._posts storage)).*1.
Proof.
  intros Hkey. unfold Storage.list_posts. rewrite <-list_fmap_compose.
  apply list_fmap_ext. intros i [key post] Hi. simpl.
  apply Hkey. apply elem_of_map_to_list. by eapply list_elem_of_lookup_2.
Qed.

Lemma elem_of_list_posts post storage :
  post ∈ Storage.list_posts storage
  ↔ ∃ key, Storage._posts storage !! key = Some post.
Proof.
  unfold Storage.list_posts. rewrite list_elem_of_fmap. split.
  - intros [[key p] [-> Hin]]. exists key. by apply elem_of_map_to_list.
  - intros [key Hkey]. exists (key, post). split; [done|].
    by apply elem_of_map_to_list.
Qed.

Lemma list_posts_ids_dom storage :
  keyed_by_id storage →
  PostModel.id <$> Storage.list_posts storage
  ≡ₚ elements (dom (Storage._posts storage)).
Proof.
  intros Hkey. rewrite list_posts_ids by done.
  apply NoDup_Permutation.
  - apply NoDup_fst_map_to_list.
  - apply NoDup_elements.
  - intros key. rewrite elem_of_elements, dom_alt, elem_of_list_to_set. done.
Qed.

(** C8. Per-key frame: Create, Update and Delete leave what the store
    holds under every identifier other than the one they act on as it was,
    and after any sequence of requests no two records of the store carry the
    same [id]. *)
Theorem per_key_frame :
  (∀ storage author date content other,
     other ≠ PostModel.id
               (Storage.create_post uuid4 author date content storage).1 →
     Storage.get_post other
       (Storage.create_post uuid4 author date content storage).2
     = Storage.get_post other storage)
  ∧ (∀ storage post_id author date content other,
       other ≠ post_id →
       Storage.get_post other
         (Storage.update_post post_id author date content storage).2
       = Storage.get_post other storage)
  ∧ (∀ storage post_id other,
       other ≠ post_id →
       Storage.get_post other (Storage.delete_post post_id storage).2
       = Storage.get_post other storage)
  ∧ (∀ reqs, NoDup (PostModel.id <$> Storage.list_posts (final reqs))).
Proof.
  split_and!.
  - intros storage author date content other Hne. simpl in *.
    unfold Storage.get_post. simpl. by rewrite lookup_insert_ne.
  - intros storage post_id author date content other Hne.
    unfold Storage.update_post. case_decide; [done|].
    unfold Storage.get_post. simpl. by rewrite lookup_insert_ne.
  - intros storage post_id other Hne. rewrite delete_post_spec.
    unfold Storage.get_post. simpl. by rewrite lookup_delete_ne.
  - intros reqs. rewrite list_posts_ids by apply state_after_keyed_by_id.
    apply NoDup_fst_map_to_list.
Qed.

(** C10. List and get agree: after any sequence of requests, [list_posts]
    has as many posts as the store has identifiers, the ids of its posts are
    the stored identifiers, each once, and [get_post] on the id of a listed
    post returns that post. *)
Theorem list_get_consistent reqs :
  let storage := final reqs in
  length (Storage.list_posts storage) = size (dom (Storage._posts storage))
  ∧ PostModel.id <$> Storage.list_posts storage
    ≡ₚ elements (dom (Storage._posts storage))
  ∧ (∀ post,
       post ∈ Storage.list_posts storage →
       Storage.get_post (PostModel.id post) storage = Some post).
Proof.
  intros storage. pose proof (state_after_keyed_by_id reqs) as Hkey.
  fold storage in Hkey. split_and!.
  - unfold Storage.list_posts.
    by rewrite length_fmap, length_map_to_list, size_dom.
  - by apply list_posts_ids_dom.
  - intros post [key Hin]%elem_of_list_posts. unfold Storage.get_post.
    by rewrite (Hkey _ _ Hin).
Qed.

(** *** Validation comes first *)

Lemma structurally_invalid_iff body :
  structurally_invalid validate_str validate_datetime body
  ↔ validate body = None.
Proof.
  split.
  - intros [b Hno|members name Hname Hmiss|members name v Hname Hget Hbad
            |members v Hget Hbad].
    { destruct b; try done. by destruct (Hno members). }
    all: simpl.
    all: destruct (json_member "author" members) as [a|] eqn:Ha;
      simpl; [|done].
    all: destruct (validate_str a) as [author|] eqn:Hva; simpl; [|done].
    all: destruct (json_member "date" members) as [d|] eqn:Hd;
      simpl; [|done].
    all: destruct (validate_datetime d) as [date|] eqn:Hvd; simpl; [|done].
    all: destruct (json_member "content" members) as [c|] eqn:Hc;
      simpl; [|done].
    all: destruct (validate_str c) as [content|] eqn:Hvc; simpl; [|done].
    all: exfalso; try congruence.
    all: set_unfold; destruct_or?; subst; (done || congruence).
  - destruct body as [|b|m e|s|items|members]; intros Hnone;
      try (by apply not_an_object).
    simpl in Hnone.
    destruct (json_member "author" members) as [a|] eqn:Ha;
      [|apply (missing_field _ _ _ "author"); [set_solver|done]].
    destruct (validate_str a) as [author|] eqn:Hva;
      [|apply (wrong_typed_field _ _ _ "author" a); [set_solver|done..]].
    destruct (json_member "date" members) as [d|] eqn:Hd;
      [|apply (missing_field _ _ _ "date"); [set_solver|done]].
    destruct (validate_datetime d) as [date|] eqn:Hvd;
      [|by apply (unparseable_timestamp _ _ _ d)].
    destruct (json_member "content" members) as [c|] eqn:Hc;
      [|apply (missing_field _ _ _ "content"); [set_solver|done]].
    destruct (validate_str c) as [content|] eqn:Hvc;
      [|apply (wrong_typed_field _ _ _ "content" c); [set_solver|done..]].
    simpl in Hnone. rewrite Hva in Hnone. simpl in Hnone.
    rewrite Hvd in Hnone. simpl in Hnone. rewrite Hvc in Hnone. done.
Qed.

(** C7. Update validates before it looks the id up: for a structurally
    invalid body the answer to Update is InvalidInput whatever the id and
    whatever the store holds, present id or not, and the store after the
    request is the store before it. *)
Theorem update_validates_first body :
  structurally_invalid validate_str validate_datetime body →
  ∀ post_id storage,
    app (PUT_posts_id post_id body) storage = (InvalidInput, storage).
Proof.
  intros Hbad%structurally_invalid_iff post_id storage.
  rewrite app_PUT_posts_id. by rewrite Hbad.
Qed.

(** *** Identifiers over a sequence of requests *)

Lemma collision_free_le (m n : nat) :
  (m ≤ n)%nat → collision_free uuid4 n → collision_free uuid4 m.
Proof.
  intros Hle. unfold collision_free.
  replace n with (m + (n - m)) by lia.
  rewrite seq_app, fmap_app, NoDup_app. naive_solver.
Qed.

Lemma drawn_S (n : nat) : drawn uuid4 (S n) = drawn uuid4 n ∪ {[uuid4 n]}.
Proof.
  unfold drawn. rewrite seq_S, fmap_app. simpl.
  by rewrite list_to_set_snoc_L.
Qed.

Lemma collision_free_fresh (n : nat) :
  collision_free uuid4 (S n) → uuid4 n ∉ drawn uuid4 n.
Proof.
  unfold collision_free, drawn. rewrite seq_S, fmap_app, NoDup_app.
  intros (_ & Hfresh & _) Hin%elem_of_list_to_set.
  apply (Hfresh _ Hin). simpl. set_solver.
Qed.

(** The ids that the Creates of a log returned are the identifiers the
    generator gave while the log was made, in order. *)
Lemma serve_created_ids reqs storage :
  (Storage.uuid_calls storage ≤ Storage.uuid_calls (serve reqs storage).2)%nat
  ∧ created_ids (serve reqs storage).1
    = uuid4 <$> seq (Storage.uuid_calls storage)
        (Storage.uuid_calls (serve reqs storage).2
         - Storage.uuid_calls storage).
Proof.
  revert storage. induction reqs as [|req rest IH]; intros storage.
  { simpl. by rewrite Nat.sub_diag. }
  simpl. destruct (app req storage) as [resp storage1] eqn:Happ.
  destruct (IH storage1) as [Hle Hids].
  destruct (serve rest storage1) as [log storage2]. simpl in *.
  unfold created_ids in *. simpl.
  destruct req as [|body|post_id|post_id body|post_id].
  - rewrite app_GET_posts in Happ. by simplify_eq.
  - rewrite app_POST_posts in Happ.
    destruct (validate body) as [post|]; simplify_eq/=; [|done].
    split; [lia|]. rewrite Hids.
    replace (Storage.uuid_calls storage2 - Storage.uuid_calls storage)
      with (S (Storage.uuid_calls storage2 - S (Storage.uuid_calls storage)))
      by lia.
    done.
  - pose proof (app_GET_posts_id post_id storage) as Hsame.
    rewrite Happ in Hsame. simpl in Hsame. by subst.
  - rewrite app_PUT_posts_id in Happ.
    destruct (validate body) as [post|]; simplify_eq/=; [|done].
    case_decide; by simplify_eq/=.
  - rewrite app_DELETE_posts_id in Happ. case_decide; by simplify_eq/=.
Qed.


(** The identifiers in the store are those created and not deleted, from
    any store whose identifiers all came from the generator. *)
Lemma serve_dom reqs storage (C D : gset string) :
  collision_free uuid4 (Storage.uuid_calls (serve reqs storage).2) →
  dom (Storage._posts storage) = C ∖ D →
  D ⊆ C →
  C ⊆ drawn uuid4 (Storage.uuid_calls storage) →
  dom (Storage._posts (serve reqs storage).2)
  = (C ∪ list_to_set (created_ids (serve reqs storage).1))
    ∖ (D ∪ list_to_set (deleted_ids (serve reqs storage).1)).
Proof.
  revert storage C D.
  induction reqs as [|req rest IH]; intros storage C D Hfree Hdom HDC HC.
  { simpl. rewrite Hdom. set_solver. }
  simpl in *. destruct (app req storage) as [resp storage1] eqn:Happ.
  specialize (IH storage1).
  pose proof (serve_created_ids rest storage1) as [Hle _].
  destruct (serve rest storage1) as [log storage2]. simpl in *.
  unfold created_ids, deleted_ids in *. simpl.
  destruct req as [|body|post_id|post_id body|post_id].
  - rewrite app_GET_posts in Happ. simplify_eq/=. by apply IH.
  - rewrite app_POST_posts in Happ.
    destruct (validate body) as [post|]; simplify_eq/=; [|by apply IH].
    pose proof (collision_free_fresh (Storage.uuid_calls storage)
                  (collision_free_le _ _ Hle Hfree)) as Hfresh.
    rewrite (IH (C ∪ {[uuid4 (Storage.uuid_calls storage)]}) D);
      [set_solver|done|..].
    + rewrite dom_insert_L, Hdom. set_solver.
    + set_solver.
    + rewrite drawn_S. set_solver.
  - pose proof (app_GET_posts_id post_id storage) as Hsame.
    rewrite Happ in Hsame. simpl in Hsame. subst storage1.
    by apply IH.
  - rewrite app_PUT_posts_id in Happ.
    destruct (validate body) as [post|]; simplify_eq/=; [|by apply IH].
    case_decide as Hin; simplify_eq/=; [|by apply IH].
    apply IH; [done| |done..].
    rewrite dom_insert_L, <-Hdom. set_solver.
  - rewrite app_DELETE_posts_id in Happ.
    case_decide as Hin; simplify_eq/=; [|by apply IH].
    rewrite (IH C (D ∪ {[post_id]})); [set_solver|done|..].
    + rewrite dom_delete_L, Hdom. set_solver.
    + set_solver.
    + done.
Qed.

Lemma List_ids_dom storage :
  keyed_by_id storage →
  list_to_set (List_ids uuid4 validate_str validate_datetime storage)
  =@{gset string} dom (Storage._posts storage).
Proof.
  intros Hkey. unfold List_ids. simpl. unfold Main.list_posts.
  rewrite <-list_fmap_compose.
  change (Post.id ∘ Post.from_model) with PostModel.id.
  rewrite list_posts_ids by done.
  apply leibniz_equiv. by rewrite dom_alt.
Qed.

(** C4. List completeness: as long as the generator gives no identifier
    twice, after any sequence of requests the set of ids that List shows is
    the set of ids that the successful Creates of the sequence returned minus
    the set of ids that its successful Deletes removed. *)
Theorem list_completeness reqs :
  collision_free uuid4 (Storage.uuid_calls (final reqs)) →
  list_to_set (List_ids uuid4 validate_str validate_datetime (final reqs))
  =@{gset string}
    list_to_set (created_ids (serve reqs Storage.init).1)
    ∖ list_to_set (deleted_ids (serve reqs Storage.init).1).
Proof.
  intros Hfree. rewrite List_ids_dom by apply state_after_keyed_by_id.
  unfold state_after in *.
  rewrite (serve_dom reqs Storage.init ∅ ∅); [set_solver|done|..].
  - simpl. rewrite dom_empty_L. set_solver.
  - done.
  - set_solver.
Qed.

(** *** The same facts at the routes *)

(** X17. Create then Read, as requests: a body that validation accepts
    gets a 201 with a post that has the validated author, date and content,
    and a GET of the id of that post gets a 200 with the same post. *)
Lemma routes_create_then_read body input storage :
  validate body = Some input →
  ∃ created storage',
    app (POST_posts body) storage
    = (Response 201 (OnePost created), storage')
    ∧ app (GET_posts_id (Post.id created)) storage'
      = (Response 200 (OnePost created), storage')
    ∧ Post.author created = PostInput.author input
    ∧ Post.date created = PostInput.date input
    ∧ Post.content created = PostInput.content input.
Proof.
  intros Hvalid. rewrite app_POST_posts, Hvalid. simpl.
  eexists _, _. split; [done|]. split; [|done].
  unfold Main.get_post, Storage.get_post. simpl.
  by rewrite lookup_insert_eq.
Qed.

(** X18. After a DELETE answered 204, every request on the same id is
    answered NotFound, an Update with an invalid body excepted, which is
    answered InvalidInput; none of them changes the store. *)
Lemma routes_delete_is_terminal post_id storage storage' :
  app (DELETE_posts_id post_id) storage = (Response 204 NoBody, storage') →
  app (GET_posts_id post_id) storage' = (NotFound, storage')
  ∧ (∀ body,
       app (PUT_posts_id post_id body) storage'
       = (match validate body with
          | Some _ => NotFound
          | None => InvalidInput
          end, storage'))
  ∧ app (DELETE_posts_id post_id) storage' = (NotFound, storage').
Proof.
  rewrite app_DELETE_posts_id. case_decide; [|done]. intros [= <-].
  assert (post_id ∉ dom (delete post_id (Storage._posts storage))) as Hgone.
  { rewrite elem_of_dom, lookup_delete_eq. by intros [? ?]. }
  split_and!.
  - simpl. unfold Main.get_post, Storage.get_post. simpl.
    by rewrite lookup_delete_eq.
  - intros body. rewrite app_PUT_posts_id. simpl.
    destruct (validate body); [|done]. by rewrite decide_False.
  - rewrite app_DELETE_posts_id. simpl. by rewrite decide_False.
Qed.

(** *** Where the author of a stored post comes from *)

Lemma serve_authors (R : string → Prop) reqs storage :
  (∀ key post,
     Storage._posts storage !! key = Some post → R (PostModel.author post)) →
  (∀ author,
     accepted_author validate_str validate_datetime reqs author → R author) →
  ∀ key post,
    Storage._posts (serve reqs storage).2 !! key = Some post →
    R (PostModel.author post).
Proof.
  revert storage. induction reqs as [|req rest IH]; intros storage HR Hacc.
  { done. }
  simpl. destruct (app req storage) as [resp storage1] eqn:Happ.
  specialize (IH storage1).
  destruct (serve rest storage1) as [log storage2]. simpl in *.
  assert (∀ body input,
            request_body req = Some body → validate body = Some input →
            R (PostInput.author input)) as Hreq.
  { intros body input Hbody Hvalid. apply Hacc.
    exists req, body, input. split_and!; [left|done..]. }
  apply IH.
  - destruct req as [|body|post_id|post_id body|post_id].
    + rewrite app_GET_posts in Happ. by simplify_eq.
    + rewrite app_POST_posts in Happ.
      destruct (validate body) as [input|] eqn:Hvalid; simplify_eq/=;
        [|done].
      intros key post. rewrite lookup_insert.
      case_decide; [|apply HR]. intros [= <-]. by eapply Hreq.
    + pose proof (app_GET_posts_id post_id storage) as Hsame.
      rewrite Happ in Hsame. simpl in Hsame. by subst.
    + rewrite app_PUT_posts_id in Happ.
      destruct (validate body) as [input|] eqn:Hvalid; simplify_eq/=;
        [|done].
      case_decide; simplify_eq/=; [|done].
      intros key post. rewrite lookup_insert.
      case_decide; [|apply HR]. intros [= <-]. by eapply Hreq.
    + rewrite app_DELETE_posts_id in Happ.
      case_decide; simplify_eq/=; [|done].
      intros key post. rewrite lookup_delete.
      case_decide; [done|apply HR].
  - intros author (req' & body & input & Hin & Hrest). apply Hacc.
    exists req', body, input. split; [by right|done].
Qed.

(** C9, as the code has it. The author of a post is text, and it may be
    the empty text: after any sequence of requests, the author of every
    stored post is the author field of the body of a Create or Update
    request of the sequence, as validation accepted it. *)
Theorem stored_author_is_accepted reqs post :
  post ∈ Storage.list_posts (final reqs) →
  accepted_author validate_str validate_datetime reqs (PostModel.author post).
Proof.
  intros [key Hkey]%elem_of_list_posts.
  eapply (serve_authors _ reqs Storage.init); [|done|exact Hkey].
  intros key' post'. unfold Storage.init. simpl. by rewrite lookup_empty.
Qed.

(** *** What each route answers, and when the store changes *)

(** X7. The status of every answer, route by route: List is always 200;
    Create is 422 when the body fails validation and 201 otherwise; Read is
    200 for an id in the store and 404 otherwise; Update is 422 for a body
    that fails validation whatever the id, and else 200 or 404 as the id is
    in the store or not; Delete is 204 or 404 as the id is in the store or
    not. *)
Theorem status_by_route req storage :
  status (app req storage).1
  = match req with
    | GET_posts => 200%Z
    | POST_posts body =>
        match validate body with Some _ => 201%Z | None => 422%Z end
    | GET_posts_id post_id =>
        if decide (post_id ∈ dom (Storage._posts storage))
        then 200%Z else 404%Z
    | PUT_posts_id post_id body =>
        match validate body with
        | None => 422%Z
        | Some _ =>
            if decide (post_id ∈ dom (Storage._posts storage))
            then 200%Z else 404%Z
        end
    | DELETE_posts_id post_id =>
        if decide (post_id ∈ dom (Storage._posts storage))
        then 204%Z else 404%Z
    end.
Proof.
  destruct req as [|body|post_id|post_id body|post_id].
  - done.
  - rewrite app_POST_posts. by destruct (validate body).
  - simpl. unfold Main.get_post, Storage.get_post. case_decide as Hin.
    + apply elem_of_dom in Hin as [post ->]. done.
    + apply not_elem_of_dom in Hin. by rewrite Hin.
  - rewrite app_PUT_posts_id. destruct (validate body); [|done].
    by case_decide.
  - rewrite app_DELETE_posts_id. by case_decide.
Qed.

(** X8. A request that is answered 404 or 422 leaves the store exactly as
    it was, and so do List and Read whatever they answer: the store changes
    only with a Create answered 201, an Update answered 200 or a Delete
    answered 204. *)
Theorem store_changes_only_on_success req storage :
  (app req storage).2 ≠ storage →
  match req with
  | POST_posts _ => status (app req storage).1 = 201%Z
  | PUT_posts_id _ _ => status (app req storage).1 = 200%Z
  | DELETE_posts_id _ => status (app req storage).1 = 204%Z
  | GET_posts | GET_posts_id _ => False
  end.
Proof.
  destruct req as [|body|post_id|post_id body|post_id].
  - intros Hchanged. by apply Hchanged.
  - rewrite app_POST_posts. by destruct (validate body).
  - rewrite app_GET_posts_id. intros Hchanged. by apply Hchanged.
  - rewrite app_PUT_posts_id. destruct (validate body); [|done].
    by case_decide.
  - rewrite app_DELETE_posts_id. by case_decide.
Qed.

(** X9. Create validates before it reaches the store: a structurally
    invalid body is answered InvalidInput, no record is stored and no
    identifier is drawn. *)
Theorem create_validates_first body :
  structurally_invalid validate_str validate_datetime body →
  ∀ storage, app (POST_posts body) storage = (InvalidInput, storage).
Proof.
  intros Hbad%structurally_invalid_iff storage.
  rewrite app_POST_posts. by rewrite Hbad.
Qed.

(** X10. Create and Update take the same bodies: a body that Create
    answers with InvalidInput is answered with InvalidInput by Update, for
    every id and every store, and the other way round. *)
Theorem create_and_update_reject_alike body post_id storage1 storage2 :
  (app (POST_posts body) storage1).1 = InvalidInput
  ↔ (app (PUT_posts_id post_id body) storage2).1 = InvalidInput.
Proof.
  rewrite app_POST_posts, app_PUT_posts_id.
  destruct (validate body); [|done]. simpl. by case_decide.
Qed.

(** X11. The empty store the module starts with: List answers 200 with no
    post, and Read, Delete and an Update with a valid body answer NotFound
    for every id, all without changing the store. *)
Theorem empty_store_answers :
  app GET_posts Storage.init = (Response 200 (PostList []), Storage.init)
  ∧ (∀ post_id,
       app (GET_posts_id post_id) Storage.init = (NotFound, Storage.init))
  ∧ (∀ post_id body input,
       validate body = Some input →
       app (PUT_posts_id post_id body) Storage.init
       = (NotFound, Storage.init))
  ∧ (∀ post_id,
       app (DELETE_posts_id post_id) Storage.init
       = (NotFound, Storage.init)).
Proof.
  split_and!.
  - rewrite app_GET_posts. unfold Storage.list_posts, Storage.init. simpl.
    by rewrite map_to_list_empty.
  - done.
  - intros post_id body input Hvalid.
    rewrite app_PUT_posts_id, Hvalid. by rewrite decide_False.
  - intros post_id. rewrite app_DELETE_posts_id. by rewrite decide_False.
Qed.

(** X12. Where the id of an answer comes from: the post of a 201 carries
    the identifier the generator gave, the post of a 200 to an Update
    carries the id of the path, whatever the body holds, and after any
    sequence of requests the post of a 200 to a Read carries the id that was
    asked for. *)
Theorem answered_id_is_path_or_generated :
  (∀ body storage post storage',
     app (POST_posts body) storage
     = (Response 201 (OnePost post), storage') →
     Post.id post = uuid4 (Storage.uuid_calls storage))
  ∧ (∀ post_id body storage post storage',
       app (PUT_posts_id post_id body) storage
       = (Response 200 (OnePost post), storage') →
       Post.id post = post_id)
  ∧ (∀ reqs post_id post storage',
       app (GET_posts_id post_id) (final reqs)
       = (Response 200 (OnePost post), storage') →
       Post.id post = post_id).
Proof.
  split_and!.
  - intros body storage post storage'. rewrite app_POST_posts.
    destruct (validate body); [|done]. by intros [= <- _].
  - intros post_id body storage post storage'. rewrite app_PUT_posts_id.
    destruct (validate body); [|done]. case_decide; [|done].
    by intros [= <- _].
  - intros reqs post_id post storage'. simpl.
    unfold Main.get_post, Storage.get_post.
    destruct (Storage._posts (final reqs) !! post_id) as [found|] eqn:Hfound;
      [|done].
    intros [= <- _]. simpl.
    by apply (state_after_keyed_by_id reqs).
Qed.

(** *** Counting over a sequence of requests *)

(** X13. One identifier is drawn for each Create that is answered 201 and
    none for any other request: after a sequence of requests from the empty
    store, the number of [uuid4] calls is the number of posts created. *)
Theorem one_identifier_per_create reqs :
  Storage.uuid_calls (final reqs)
  = length (created_ids (serve reqs Storage.init).1).
Proof.
  destruct (serve_created_ids reqs Storage.init) as [_ ->].
  rewrite length_fmap, length_seq. unfold state_after. simpl. lia.
Qed.

(** The ids that the Deletes of a log removed were in the store or created
    by the log before, and none was removed twice. *)
Lemma serve_deleted_ids reqs storage (C D : gset string) :
  collision_free uuid4 (Storage.uuid_calls (serve reqs storage).2) →
  dom (Storage._posts storage) = C ∖ D →
  D ⊆ C →
  C ⊆ drawn uuid4 (Storage.uuid_calls storage) →
  NoDup (deleted_ids (serve reqs storage).1)
  ∧ ∀ post_id,
      post_id ∈ deleted_ids (serve reqs storage).1 →
      (post_id ∉ D)
      ∧ post_id ∈ C ∪ list_to_set (created_ids (serve reqs storage).1).
Proof.
  revert storage C D.
  induction reqs as [|req rest IH]; intros storage C D Hfree Hdom HDC HC.
  { simpl. split; [constructor|]. intros post_id Hin. by inversion Hin. }
  simpl in *. destruct (app req storage) as [resp storage1] eqn:Happ.
  specialize (IH storage1).
  pose proof (serve_created_ids rest storage1) as [Hle _].
  destruct (serve rest storage1) as [log storage2]. simpl in *.
  unfold created_ids, deleted_ids in *. simpl.
  destruct req as [|body|post_id|post_id body|post_id].
  - rewrite app_GET_posts in Happ. simplify_eq/=. by apply IH.
  - rewrite app_POST_posts in Happ.
    destruct (validate body) as [post|]; simplify_eq/=; [|by apply IH].
    pose proof (collision_free_fresh (Storage.uuid_calls storage)
                  (collision_free_le _ _ Hle Hfree)) as Hfresh.
    destruct (IH (C ∪ {[uuid4 (Storage.uuid_calls storage)]}) D)
      as [Hnodup Hin]; [done| | | |].
    + rewrite dom_insert_L, Hdom. set_solver.
    + set_solver.
    + rewrite drawn_S. set_solver.
    + split; [done|]. intros k Hk. destruct (Hin k Hk). set_solver.
  - pose proof (app_GET_posts_id post_id storage) as Hsame.
    rewrite Happ in Hsame. simpl in Hsame. subst storage1. by apply IH.
  - rewrite app_PUT_posts_id in Happ.
    destruct (validate body) as [post|]; simplify_eq/=; [|by apply IH].
    case_decide as Hin; simplify_eq/=; [|by apply IH].
    apply IH; [done| |done..].
    rewrite dom_insert_L, <-Hdom. set_solver.
  - rewrite app_DELETE_posts_id in Happ.
    case_decide as Hin; simplify_eq/=; [|by apply IH].
    destruct (IH C (D ∪ {[post_id]})) as [Hnodup Hrest]; [done| | |done|].
    + rewrite dom_delete_L, Hdom. set_solver.
    + set_solver.
    + rewrite Hdom in Hin. split.
      * apply NoDup_cons. split; [|done].
        intros Hagain. destruct (Hrest _ Hagain). set_solver.
      * intros k [->|Hk]%elem_of_cons; [set_solver|].
        destruct (Hrest k Hk). set_solver.
Qed.

(** X14. As long as the generator gives no identifier twice, in a sequence
    of requests from the empty store no id is deleted twice, and every id
    that a Delete removed is the id of a post that a Create of the sequence
    returned. *)
Theorem deleted_once_and_created reqs :
  collision_free uuid4 (Storage.uuid_calls (final reqs)) →
  NoDup (deleted_ids (serve reqs Storage.init).1)
  ∧ deleted_ids (serve reqs Storage.init).1
    ⊆ created_ids (serve reqs Storage.init).1.
Proof.
  intros Hfree.
  destruct (serve_deleted_ids reqs Storage.init ∅ ∅) as [Hnodup Hin];
    [done| |done|set_solver|].
  { simpl. rewrite dom_empty_L. set_solver. }
  split; [done|]. intros post_id Hdel. destruct (Hin _ Hdel). set_solver.
Qed.

(** X15. Deletion lasts: as long as the generator gives no identifier
    twice, an id that a Delete of the sequence removed is not among the ids
    that List shows at the end, whatever requests came after the Delete. *)
Theorem deleted_stays_gone reqs post_id :
  collision_free uuid4 (Storage.uuid_calls (final reqs)) →
  post_id ∈ deleted_ids (serve reqs Storage.init).1 →
  (post_id ∉ List_ids uuid4 validate_str validate_datetime (final reqs))
  ∧ app (GET_posts_id post_id) (final reqs) = (NotFound, final reqs).
Proof.
  intros Hfree Hdel.
  assert (post_id ∉ dom (Storage._posts (final reqs))) as Hgone.
  { unfold state_after in *.
    rewrite (serve_dom reqs Storage.init ∅ ∅); [set_solver|done|..].
    - simpl. rewrite dom_empty_L. set_solver.
    - done.
    - set_solver.
  }
  split.
  - intros Hin%(elem_of_list_to_set (C := gset string)).
    by rewrite List_ids_dom in Hin by apply state_after_keyed_by_id.
  - simpl. unfold Main.get_post, Storage.get_post.
    apply not_elem_of_dom in Hgone. by rewrite Hgone.
Qed.

(** X16. As long as the generator gives no identifier twice, the number of
    posts that List shows after a sequence of requests from the empty store
    is the number of Creates answered 201 minus the number of Deletes
    answered 204. *)
Theorem listed_count reqs :
  collision_free uuid4 (Storage.uuid_calls (final reqs)) →
  length (Storage.list_posts (final reqs))
  = length (created_ids (serve reqs Storage.init).1)
    - length (deleted_ids (serve reqs Storage.init).1).
Proof.
  intros Hfree.
  destruct (serve_deleted_ids reqs Storage.init ∅ ∅) as [Hnodup Hin];
    [done| |done|set_solver|].
  { simpl. rewrite dom_empty_L. set_solver. }
  assert (NoDup (created_ids (serve reqs Storage.init).1)) as Hcreated.
  { destruct (serve_created_ids reqs Storage.init) as [_ ->].
    simpl. by rewrite Nat.sub_0_r. }
  rewrite length_list_posts, <-(size_dom (D := gset string)).
  unfold state_after in *.
  rewrite (serve_dom reqs Storage.init ∅ ∅); [|done|..].
  - rewrite !union_empty_l_L, size_difference.
    + by rewrite !size_list_to_set.
    + intros k Hk%elem_of_list_to_set. destruct (Hin _ Hk). set_solver.
  - simpl. rewrite dom_empty_L. set_solver.
  - done.
  - set_solver.
Qed.

End Routes.

(** ** The statements on the sample instances *)

(** C9, as the specification has it, fails: the Create of a post whose
    author is the empty text is accepted, and the store then holds a post
    with an empty author. *)
Lemma empty_author_is_stored :
  ¬ (∀ post,
       post ∈ Storage.list_posts
                (state_after sample_uuid4 str_of_json datetime_of_json
                   [POST_posts anonymous_body]) →
       PostModel.author post ≠ "").
Proof.
  intros Hclaim.
  apply (Hclaim (PostModel.mk id0 "" jan_1 "hello")); [|done].
  vm_compute. left.
Qed.


(** Where the hypothesis of C4 is used. The store takes the
    freshness of an identifier from the generator and has no check of its
    own; [uuid4] does not repeat itself, but were an identifier to come back
    after the Delete of its post, the next Create would return it again and
    List would show an id that has been deleted. *)
Lemma returned_identifier_is_reused :
  let log :=
    (serve stuck_uuid4 str_of_json datetime_of_json
       [POST_posts alice_body; DELETE_posts_id id0; POST_posts bob_body]
       Storage.init).1 in
  let storage :=
    state_after stuck_uuid4 str_of_json datetime_of_json
      [POST_posts alice_body; DELETE_posts_id id0; POST_posts bob_body] in
  created_ids log = [id0; id0]
  ∧ deleted_ids log = [id0]
  ∧ List_ids stuck_uuid4 str_of_json datetime_of_json storage = [id0].
Proof. vm_compute. done. Qed.

Lemma create_then_read_roundtrip_witness :
  Main.get_post id0 one_post = inr (PostModel.mk id0 "Alice" jan_1 "hello").
Proof.
  apply (create_then_read_roundtrip sample_uuid4 alice Storage.init).
Defined.

Lemma update_preserves_identity_witness :
  id0 ∈ dom (Storage._posts one_post)
  ∧ (Main.update_post id0 bob one_post).1
    = inr (PostModel.mk id0 "Bob" feb_2 "bye")
  ∧ Storage.get_post id0 (Main.update_post id0 bob one_post).2
    = Some (PostModel.mk id0 "Bob" feb_2 "bye").
Proof.
  assert (id0 ∈ dom (Storage._posts one_post)) as Hin.
  { apply elem_of_dom. eexists. vm_compute. reflexivity. }
  split; [exact Hin|].
  exact (update_preserves_identity id0 bob one_post Hin).
Defined.

Lemma delete_is_terminal_witness :
  let gone := (Main.delete_post id0 one_post).2 in
  Main.get_post id0 gone = inl Main.not_found
  ∧ (∀ post, Main.update_post id0 post gone = (inl Main.not_found, gone))
  ∧ Main.delete_post id0 gone = (inl Main.not_found, gone).
Proof.
  apply (delete_is_terminal id0 one_post). vm_compute. reflexivity.
Defined.

Lemma list_completeness_witness :
  collision_free sample_uuid4 3
  ∧ list_to_set
      (List_ids sample_uuid4 str_of_json datetime_of_json
         (state_after sample_uuid4 str_of_json datetime_of_json busy_day))
    =@{gset string}
      list_to_set (created_ids (sample_serve busy_day Storage.init).1)
      ∖ list_to_set (deleted_ids (sample_serve busy_day Storage.init).1).
Proof.
  assert (collision_free sample_uuid4 3) as Hfree.
  { unfold collision_free. apply (bool_decide_unpack _). vm_compute. exact I. }
  split; [exact Hfree|].
  apply (list_completeness sample_uuid4 str_of_json datetime_of_json busy_day).
  exact Hfree.
Defined.


Lemma update_absent_no_upsert_witness :
  (id1 ∉ dom (Storage._posts one_post))
  ∧ Storage.update_post id1 "Bob" feb_2 "bye" one_post = (None, one_post)
  ∧ Main.update_post id1 bob one_post = (inl Main.not_found, one_post)
  ∧ Storage.get_post id1 (Main.update_post id1 bob one_post).2 = None.
Proof.
  assert (id1 ∉ dom (Storage._posts one_post)) as Hout.
  { apply not_elem_of_dom. vm_compute. reflexivity. }
  split; [exact Hout|].
  exact (update_absent_no_upsert id1 bob one_post Hout).
Defined.

Lemma update_validates_first_witness :
  structurally_invalid str_of_json datetime_of_json broken_body
  ∧ sample_app (PUT_posts_id id1 broken_body) one_post
    = (InvalidInput, one_post)
  ∧ sample_app (PUT_posts_id id0 broken_body) one_post
    = (InvalidInput, one_post).
Proof.
  assert (structurally_invalid str_of_json datetime_of_json broken_body)
    as Hbad.
  { apply (missing_field _ _ _ "date"); [|reflexivity].
    apply list_elem_of_further, list_elem_of_here. }
  split; [exact Hbad|]. split.
  - exact (update_validates_first sample_uuid4 str_of_json datetime_of_json
             broken_body Hbad id1 one_post).
  - exact (update_validates_first sample_uuid4 str_of_json datetime_of_json
             broken_body Hbad id0 one_post).
Defined.

Lemma per_key_frame_witness :
  Storage.get_post id0
    (Storage.create_post sample_uuid4 "Bob" feb_2 "bye" one_post).2
  = Storage.get_post id0 one_post
  ∧ Storage.get_post id0
      (Storage.update_post id1 "Bob" feb_2 "bye" one_post).2
    = Storage.get_post id0 one_post
  ∧ Storage.get_post id0 (Storage.delete_post id1 one_post).2
    = Storage.get_post id0 one_post
  ∧ NoDup (PostModel.id <$>
             Storage.list_posts
               (state_after sample_uuid4 str_of_json datetime_of_json
                  busy_day)).
Proof.
  destruct (per_key_frame sample_uuid4 str_of_json datetime_of_json)
    as (Hcreate & Hupdate & Hdelete & Hone).
  split_and!.
  - apply Hcreate. vm_compute. discriminate.
  - apply Hupdate. vm_compute. discriminate.
  - apply Hdelete. vm_compute. discriminate.
  - apply Hone.
Defined.

Lemma stored_author_is_accepted_witness :
  accepted_author str_of_json datetime_of_json [POST_posts anonymous_body] "".
Proof.
  apply (stored_author_is_accepted sample_uuid4 str_of_json datetime_of_json
           [POST_posts anonymous_body] (PostModel.mk id0 "" jan_1 "hello")).
  vm_compute. left.
Defined.

Lemma list_get_consistent_witness :
  let storage :=
    state_after sample_uuid4 str_of_json datetime_of_json busy_day in
  length (Storage.list_posts storage) = 2
  ∧ Storage.get_post id1 storage
    = Some (PostModel.mk id1 "Alice" jan_1 "hello").
Proof.
  destruct (list_get_consistent sample_uuid4 str_of_json datetime_of_json
              busy_day) as (Hlen & _ & Hget).
  split.
  - rewrite Hlen. vm_compute. reflexivity.
  - apply (Hget (PostModel.mk id1 "Alice" jan_1 "hello")).
    apply elem_of_list_posts. exists id1. vm_compute. reflexivity.
Defined.

(** ** The further statements on the sample instances *)

Lemma create_then_delete_restores_witness :
  Storage.delete_post id1
    (Storage.create_post sample_uuid4 "Bob" feb_2 "bye" one_post).2
  = (true, Storage.mk (Storage._posts one_post) 2).
Proof.
  apply (create_then_delete_restores sample_uuid4 "Bob" feb_2 "bye" one_post).
  apply not_elem_of_dom. vm_compute. reflexivity.
Defined.

Lemma mutations_of_distinct_ids_commute_witness :
  (Storage.update_post id0 "Carol" feb_2 "hi"
     (Storage.update_post id1 "Dave" jan_1 "yo" two_posts).2).2
  = (Storage.update_post id1 "Dave" jan_1 "yo"
       (Storage.update_post id0 "Carol" feb_2 "hi" two_posts).2).2
  ∧ (Storage.delete_post id0
       (Storage.update_post id1 "Dave" jan_1 "yo" two_posts).2).2
    = (Storage.update_post id1 "Dave" jan_1 "yo"
         (Storage.delete_post id0 two_posts).2).2
  ∧ (Storage.delete_post id0 (Storage.delete_post id1 two_posts).2).2
    = (Storage.delete_post id1 (Storage.delete_post id0 two_posts).2).2
  ∧ (Storage.update_post id1 "Dave" jan_1 "yo"
       (Storage.delete_post id0 two_posts).2).1
    = Some (PostModel.mk id1 "Dave" jan_1 "yo")
  ∧ (Storage.delete_post id0 (Storage.delete_post id1 two_posts).2).1
    = true.
Proof.
  assert (id0 ≠ id1) as Hne by (vm_compute; discriminate).
  destruct (mutations_of_distinct_ids_commute id0 id1 "Carol" feb_2 "hi"
              "Dave" jan_1 "yo" two_posts Hne)
    as (Huu & Hdu & Hdd & _ & Hud & _ & Hd).
  split_and!; [exact Huu|exact Hdu|exact Hdd| |].
  - rewrite Hud. vm_compute. reflexivity.
  - rewrite Hd. vm_compute. reflexivity.
Defined.

Lemma store_changes_only_on_success_witness :
  status (sample_app (POST_posts alice_body) Storage.init).1 = 201%Z.
Proof.
  apply (store_changes_only_on_success sample_uuid4 str_of_json
           datetime_of_json (POST_posts alice_body) Storage.init).
  intros Hsame. apply (f_equal Storage.uuid_calls) in Hsame.
  vm_compute in Hsame. discriminate.
Defined.

Lemma create_validates_first_witness :
  structurally_invalid str_of_json datetime_of_json broken_body
  ∧ sample_app (POST_posts broken_body) one_post = (InvalidInput, one_post).
Proof.
  assert (structurally_invalid str_of_json datetime_of_json broken_body)
    as Hbad.
  { apply (wrong_typed_field _ _ _ "author" (JNumber 7 0));
      [apply list_elem_of_here|reflexivity..]. }
  split; [exact Hbad|].
  exact (create_validates_first sample_uuid4 str_of_json datetime_of_json
           broken_body Hbad one_post).
Defined.

Lemma empty_store_answers_witness :
  sample_app (PUT_posts_id id0 bob_body) Storage.init
  = (NotFound, Storage.init).
Proof.
  destruct (empty_store_answers sample_uuid4 str_of_json datetime_of_json)
    as (_ & _ & Hupdate & _).
  apply (Hupdate id0 bob_body bob). vm_compute. reflexivity.
Defined.

Lemma answered_id_is_path_or_generated_witness :
  Post.id (Post.mk id1 "Bob" feb_2 "bye") = sample_uuid4 1
  ∧ Post.id (Post.mk id0 "Bob" feb_2 "bye") = id0.
Proof.
  destruct (answered_id_is_path_or_generated sample_uuid4 str_of_json
              datetime_of_json) as (Hcreate & Hupdate & _).
  split.
  - apply (Hcreate bob_body one_post (Post.mk id1 "Bob" feb_2 "bye")
             (Storage.create_post sample_uuid4 "Bob" feb_2 "bye" one_post).2).
    vm_compute. reflexivity.
  - apply (Hupdate id0 bob_body one_post (Post.mk id0 "Bob" feb_2 "bye")
             (Storage.update_post id0 "Bob" feb_2 "bye" one_post).2).
    vm_compute. reflexivity.
Defined.

Lemma deleted_once_and_created_witness :
  NoDup (deleted_ids (sample_serve busy_day Storage.init).1)
  ∧ deleted_ids (sample_serve busy_day Storage.init).1
    ⊆ created_ids (sample_serve busy_day Storage.init).1.
Proof.
  apply (deleted_once_and_created sample_uuid4 str_of_json datetime_of_json
           busy_day).
  unfold collision_free. apply (bool_decide_unpack _). vm_compute. exact I.
Defined.

Lemma deleted_stays_gone_witness :
  (id0 ∉ List_ids sample_uuid4 str_of_json datetime_of_json
           (state_after sample_uuid4 str_of_json datetime_of_json busy_day))
  ∧ sample_app (GET_posts_id id0)
      (state_after sample_uuid4 str_of_json datetime_of_json busy_day)
    = (NotFound,
       state_after sample_uuid4 str_of_json datetime_of_json busy_day).
Proof.
  apply (deleted_stays_gone sample_uuid4 str_of_json datetime_of_json
           busy_day id0).
  - unfold collision_free. apply (bool_decide_unpack _). vm_compute. exact I.
  - vm_compute. left.
Defined.

Lemma listed_count_witness :
  length (Storage.list_posts
            (state_after sample_uuid4 str_of_json datetime_of_json busy_day))
  = 3 - 1.
Proof.
  apply (listed_count sample_uuid4 str_of_json datetime_of_json busy_day).
  unfold collision_free. apply (bool_decide_unpack _). vm_compute. exact I.
Defined.

Lemma routes_create_then_read_witness :
  ∃ created storage',
    sample_app (POST_posts alice_body) Storage.init
    = (Response 201 (OnePost created), storage')
    ∧ sample_app (GET_posts_id (Post.id created)) storage'
      = (Response 200 (OnePost created), storage')
    ∧ Post.author created = "Alice"
    ∧ Post.date created = jan_1
    ∧ Post.content created = "hello".
Proof.
  apply (routes_create_then_read sample_uuid4 str_of_json datetime_of_json
           alice_body alice Storage.init).
  vm_compute. reflexivity.
Defined.

Lemma routes_delete_is_terminal_witness :
  let gone := (Main.delete_post id0 one_post).2 in
  sample_app (GET_posts_id id0) gone = (NotFound, gone)
  ∧ sample_app (PUT_posts_id id0 bob_body) gone = (NotFound, gone)
  ∧ sample_app (PUT_posts_id id0 broken_body) gone = (InvalidInput, gone)
  ∧ sample_app (DELETE_posts_id id0) gone = (NotFound, gone).
Proof.
  intros gone.
  destruct (routes_delete_is_terminal sample_uuid4 str_of_json
              datetime_of_json id0 one_post gone)
    as (Hread & Hupdate & Hdelete).
  { vm_compute. reflexivity. }
  split_and!; [exact Hread| | |exact Hdelete].
  - exact (Hupdate bob_body).
  - exact (Hupdate broken_body).
Defined.
